(** * Verification of the docmerger merge core (src/docmerger.py)

    Shallow embedding of the incremental merge pass of [docmerger.py]:
    the processed-status ledger ([load_processed_files],
    [update_processed_file]), the cumulative output document handled
    through python-docx, and the driver [merge_docx_files].

    A python-docx document body ([w:body]) is modelled as the list of its
    child elements.  The two python-docx operations the driver uses are
    modelled as the library implements them:
    - [Document.paragraphs] is the list of [w:p] children of the body;
    - [Document.add_page_break] calls [add_paragraph], which inserts the new
      [w:p] before the first [w:sectPr] child of the body (CT_Body declares
      [p = ZeroOrMore("w:p", successors=("w:sectPr",))], and
      [insert_element_before] appends only when no successor exists);
    - [body.append(element)] is lxml's append: the element becomes the last
      child of the body.
    [Document()] opens python-docx's default template, whose body holds a
    single [w:sectPr] and no paragraph. *)

From Stdlib Require Import Ascii String List Bool Arith ZArith Lia.
From stdpp Require Import base gmap strings list.
Import ListNotations.
Open Scope string_scope.
Open Scope list_scope.

(** ** Document bodies *)

(** Child elements of a [w:body]. [PageBreak] is the paragraph built by
    [add_page_break]: a [w:p] holding one run with a page [w:br]. *)
Inductive elem : Type :=
| Para (text : string)
| PageBreak
| Table (name : string)
| SectPr (name : string)
| Other (tag : string).

Definition body := list elem.

Definition elem_eqb (x y : elem) : bool :=
  match x, y with
  | Para a, Para b => String.eqb a b
  | PageBreak, PageBreak => true
  | Table a, Table b => String.eqb a b
  | SectPr a, SectPr b => String.eqb a b
  | Other a, Other b => String.eqb a b
  | _, _ => false
  end.

(** Is the element a [w:p]? *)
Definition is_p (e : elem) : bool :=
  match e with
  | Para _ | PageBreak => true
  | _ => false
  end.

Definition is_sectPr (e : elem) : bool :=
  match e with SectPr _ => true | _ => false end.

(** [bool(document.paragraphs)] *)
Definition has_paragraphs (b : body) : bool := existsb is_p b.

(** [insert_element_before(p, "w:sectPr")]: before the first [w:sectPr],
    or at the end when there is none. *)
Fixpoint insert_before_sectPr (x : elem) (b : body) : body :=
  match b with
  | [] => [x]
  | e :: rest => if is_sectPr e then x :: e :: rest
                 else e :: insert_before_sectPr x rest
  end.

(** [Document.add_page_break()] *)
Definition add_page_break (b : body) : body := insert_before_sectPr PageBreak b.

(** [Document()] on python-docx's default template. *)
Definition new_document : body := [SectPr "default"].

(** ** Strings as Python handles them *)

(** [s.endswith(suffix)] *)
Definition endswith (suffix s : string) : bool :=
  let n := String.length s in
  let m := String.length suffix in
  (m <=? n)%nat && String.eqb (substring (n - m) m s) suffix.

(** [sorted(names)]: Python orders [str] by code points, which is the
    byte order of their UTF-8 encodings; insertion sort on bytes. *)
Fixpoint insert_sorted (x : string) (l : list string) : list string :=
  match l with
  | [] => [x]
  | y :: rest => if String.leb x y then x :: y :: rest else y :: insert_sorted x rest
  end.

Fixpoint sorted_names (l : list string) : list string :=
  match l with
  | [] => []
  | x :: rest => insert_sorted x (sorted_names rest)
  end.

(** ** The ledger: processed.csv *)

(** The ledger file as the rows [csv.reader] yields ([None]: the file
    does not exist).  [csv.writer] quotes fields, so a row written by
    [update_processed_file] is read back as the same two-field row. *)
Definition ledger_file := option (list (list string)).

(** The loop body of [load_processed_files]:
    [if len(row) == 2: processed[row[0]] = row[1]]. *)
Definition load_row (processed : gmap string string) (row : list string)
  : gmap string string :=
  match row with
  | [name; status] => <[name := status]> processed
  | _ => processed
  end.

(** [load_processed_files()] *)
Definition load_processed_files (lf : ledger_file) : gmap string string :=
  match lf with
  | None => ∅
  | Some rows => fold_left load_row rows ∅
  end.

(** [update_processed_file(filename, status)]: open in append mode
    (creating the file) and write one row. *)
Definition update_processed_file (lf : ledger_file) (filename status : string)
  : ledger_file :=
  match lf with
  | None => Some [[filename; status]]
  | Some rows => Some (rows ++ [[filename; status]])%list
  end.

(** ** The merge driver: merge_docx_files *)

(** What one pass reads from the file system besides the ledger and the
    output file: [os.listdir(INPUT_FOLDER)]; [Document(file_path)], whose
    body is [Some] of the child elements or [None] when it raises; and
    whether [merged_document.save(output_path)] succeeds while the given
    file is being processed (a failed save raises and writes nothing). *)
Record env : Type := {
  listing : list string;
  read_doc : string -> option body;
  save_ok : string -> bool
}.

(** The durable state: the output file (if it exists) and processed.csv. *)
Record disk : Type := {
  artifact : option body;
  ledger : ledger_file
}.

(** Effects of a pass, in program order.  [EPersist] ([save]) and
    [ERecord] ([update_processed_file]) change the disk; the others are
    the document read and the log lines and prints. *)
Inductive effect : Type :=
| EStart
| ERead (filename : string)
| EPersist (filename : string) (b : body)
| ERecord (filename status : string)
| ELog (filename status : string)
| EFinish.

(** The filename an effect is on behalf of. *)
Definition effect_file (ef : effect) : option string :=
  match ef with
  | ERead f | EPersist f _ | ERecord f _ | ELog f _ => Some f
  | EStart | EFinish => None
  end.

(** One iteration of [for filename in sorted(os.listdir(INPUT_FOLDER))],
    on the in-memory [merged_document] body [mem]: lines 80-108. *)
Definition process_file (e : env) (processed : gmap string string)
    (mem : body) (filename : string) : body * list effect :=
  if negb (endswith ".docx" filename) then (mem, [])
  else
    match processed !! filename with
    | Some _ => (mem, [])
    | None =>
        match read_doc e filename with
        | None => (mem, [ERead filename; ERecord filename "error";
                         ELog filename "error"])
        | Some sub =>
            let mem1 := if has_paragraphs mem then add_page_break mem else mem in
            let mem2 := mem1 ++ sub in
            if save_ok e filename
            then (mem2, [ERead filename; EPersist filename mem2;
                         ERecord filename "success"; ELog filename "success"])
            else (mem2, [ERead filename; ERecord filename "error";
                         ELog filename "error"])
        end
    end.

Fixpoint process_files (e : env) (processed : gmap string string)
    (mem : body) (names : list string) : body * list effect :=
  match names with
  | [] => (mem, [])
  | f :: rest =>
      let '(mem1, t1) := process_file e processed mem f in
      let '(mem2, t2) := process_files e processed mem1 rest in
      (mem2, t1 ++ t2)
  end.

(** [merge_docx_files()]: the effects of one pass from the disk state [d]. *)
Definition merge_docx_files (e : env) (d : disk) : list effect :=
  let processed := load_processed_files (ledger d) in
  let merged_document := match artifact d with
                         | Some b => b
                         | None => new_document
                         end in
  EStart :: snd (process_files e processed merged_document
                   (sorted_names (listing e))) ++ [EFinish].

Definition apply_effect (d : disk) (ef : effect) : disk :=
  match ef with
  | EPersist _ b => {| artifact := Some b; ledger := ledger d |}
  | ERecord f s => {| artifact := artifact d;
                      ledger := update_processed_file (ledger d) f s |}
  | _ => d
  end.

Definition run_effects (d : disk) (tr : list effect) : disk :=
  fold_left apply_effect tr d.

(** A complete pass. *)
Definition run_pass (e : env) (d : disk) : disk :=
  run_effects d (merge_docx_files e d).

(** A pass terminated (killed) after its first [k] effects. *)
Definition run_pass_crash (k : nat) (e : env) (d : disk) : disk :=
  run_effects d (firstn k (merge_docx_files e d)).

(** The body with the separators [add_page_break] inserts removed. *)
Definition strip_breaks (b : body) : body :=
  List.filter (fun x => match x with PageBreak => false | _ => true end) b.

(** Every [success] record of a trace comes right after the persist of the
    same file, and the persisted body ends with that file's blocks. *)
Definition persist_precedes_success (e : env) (tr : list effect) : Prop :=
  forall k f, tr !! k = Some (ERecord f "success") ->
  exists i b blocks pre, k = S i /\ tr !! i = Some (EPersist f b) /\
    read_doc e f = Some blocks /\ b = pre ++ blocks.

(** [b] extends [a]: with the separators removed, [a] is a prefix of [b]. *)
Definition grows (a b : body) : Prop :=
  exists z, strip_breaks b = strip_breaks a ++ z.




(** ** Sample inputs *)

Definition empty_disk : disk := {| artifact := None; ledger := None |}.

(** A document python-docx or Word writes: its paragraphs, then the body's
    [w:sectPr]. *)
Definition doc_of (name : string) (paras : list string) : body :=
  map Para paras ++ [SectPr name].

Definition env_of (files : list (string * body)) (bad_reads bad_saves : list string)
  : env :=
  {| listing := map fst files;
     read_doc := fun f =>
       if existsb (String.eqb f) bad_reads then None
       else match find (fun p => String.eqb (fst p) f) files with
            | Some (_, b) => Some b
            | None => None
            end;
     save_ok := fun f => negb (existsb (String.eqb f) bad_saves) |}.

(** ** The dashboard upload check (src/webui/main.py, upload_post) *)

(** Split a string at every occurrence of [c]. *)
Fixpoint split_on (c : Ascii.ascii) (s : string) : list string :=
  match s with
  | EmptyString => [EmptyString]
  | String x rest =>
      let parts := split_on c rest in
      if Ascii.eqb x c then EmptyString :: parts
      else match parts with
           | p :: ps => String x p :: ps
           | [] => [String x EmptyString]
           end
  end.

(** [safe_filename(name)] = [Path(name).name] on POSIX paths: the last
    component, empty and [.] components dropped. *)
Definition safe_filename (name : string) : string :=
  List.last (List.filter (fun p => negb (String.eqb p EmptyString) && negb (String.eqb p "."))
          (split_on "/"%char name)) EmptyString.

(** [str.lower()] on ASCII letters. *)
Definition lower_char (c : Ascii.ascii) : Ascii.ascii :=
  let n := Ascii.nat_of_ascii c in
  if (65 <=? n)%nat && (n <=? 90)%nat then Ascii.ascii_of_nat (n + 32) else c.

Fixpoint lower (s : string) : string :=
  match s with
  | EmptyString => EmptyString
  | String c rest => String (lower_char c) (lower rest)
  end.

(** [upload_post]: the name stored into the input folder, or [None] when
    the upload is refused ([existing]: the names already in the folder). *)
Definition upload_post (filename : string) (existing : list string) : option string :=
  let name := safe_filename filename in
  if negb (endswith ".docx" (lower name)) then None
  else if existsb (String.eqb name) existing then None
  else Some name.

(** ** Views of a pass used by the properties of the driver *)

(** Lines 80-85 of [merge_docx_files]: the names the loop does not skip. *)
Definition unrecorded_candidate (processed : gmap string string) (filename : string)
  : bool :=
  endswith ".docx" filename &&
  match processed !! filename with Some _ => false | None => true end.

(** The document [merge_docx_files] starts from on the disk state [d]. *)
Definition disk_view (d : disk) : body :=
  match artifact d with Some b => b | None => new_document end.

(** The elements (separators aside) the iterations over [names] append to
    the in-memory document: the body of every file not skipped whose
    [Document(file_path)] succeeds. *)
Fixpoint merged_blocks (e : env) (processed : gmap string string)
    (names : list string) : body :=
  match names with
  | [] => []
  | f :: rest =>
      (if unrecorded_candidate processed f
       then match read_doc e f with Some sub => strip_breaks sub | None => [] end
       else []) ++ merged_blocks e processed rest
  end.

(** ** The dashboard ledger view (src/webui/main.py, _read_processed) *)

(** processed.csv as [_read_processed] reads it: [CsvMissing] when the file
    does not exist; otherwise the rows [csv.reader] yields, and whether the
    reader then raises (a decoding or csv error) instead of ending. *)
Inductive csv_read : Type :=
| CsvMissing
| CsvRows (rows : list (list string)) (raises : bool).

(** The loop [for i, row in enumerate(reader)] from index [i];
    [None] when the reader raises. *)
Fixpoint read_rows (max_rows i : Z) (rows : list (list string)) (raises : bool)
  : option (list (string * string)) :=
  match rows with
  | [] => if raises then None else Some []
  | row :: rest =>
      if (max_rows <=? i)%Z then Some []
      else
        let tl := read_rows max_rows (i + 1) rest raises in
        match row with
        | [a; b] => option_map (cons (a, b)) tl
        | _ => tl
        end
  end.

(** [_read_processed(max_rows)] *)
Definition read_processed (f : csv_read) (max_rows : Z) : list (string * string) :=
  match f with
  | CsvMissing => []
  | CsvRows rows raises =>
      match read_rows max_rows 0 rows raises with Some r => r | None => [] end
  end.

(** The two-column rows of a list of rows, as pairs. *)
Definition two_column_pairs (rows : list (list string)) : list (string * string) :=
  flat_map (fun r => match r with [a; b] => [(a, b)] | _ => [] end) rows.

(** ** JSON files (src/webui/config.py, src/webui/job_manager.py) *)

(** A value [json.loads] returns.  A number with a fraction or an exponent
    is a Python float, kept as its literal; an object keeps its members in
    order. *)
#[warnings="-register-all"]
Inductive json : Type :=
| JNull
| JBool (b : bool)
| JInt (z : Z)
| JFloat (literal : string)
| JStr (s : string)
| JArr (xs : list json)
| JObj (members : list (string * json)).

(** A JSON file: [None] when it does not exist, [Some None] when reading it
    or [json.loads] raises. *)
Definition json_file := option (option json).

(** [dict.get(key)] on the dict [json.loads] builds from an object, where
    the last member with a key wins; [None] is a missing key. *)
Definition obj_get (members : list (string * json)) (key : string) : option json :=
  fold_left (fun acc kv => if String.eqb (fst kv) key then Some (snd kv) else acc)
    members None.

(** ** The web UI configuration (src/webui/config.py) *)

Section Config.

(** [int(x)] on a [str] and on a float (given by its literal):
    [None] when it raises. *)
Variable int_of_str : string -> option Z.
Variable int_of_float : string -> option Z.

(** [int(x)] on a JSON value; a [bool] is an [int] in Python, and
    [int(None)], [int(list)], [int(dict)] raise TypeError. *)
Definition py_int (v : json) : option Z :=
  match v with
  | JInt z => Some z
  | JBool b => Some (if b then 1 else 0)%Z
  | JFloat lit => int_of_float lit
  | JStr s => int_of_str s
  | _ => None
  end.

(** [load_config(path).interval_seconds]: 300 when the file is missing,
    unreadable, not an object ([data.get] raises AttributeError) or when
    [int] raises; a value [<= 0] is replaced by 300. *)
Definition load_config (cf : json_file) : Z :=
  match cf with
  | Some (Some (JObj data)) =>
      let v := match obj_get data "interval_seconds" with
               | Some v => v
               | None => JInt 300
               end in
      match py_int v with
      | Some interval => if (interval <=? 0)%Z then 300%Z else interval
      | None => 300%Z
      end
  | _ => 300%Z
  end.

End Config.

(** [save_config(path, WebUIConfig(interval_seconds))]: the file holds
    [json.dumps({"interval_seconds": int(...)})]. *)
Definition save_config (interval_seconds : Z) : json_file :=
  Some (Some (JObj [("interval_seconds", JInt interval_seconds)])).

(** ** The daemon supervisor (src/webui/job_manager.py, POSIX branch) *)

Module JobManager.

(** What [DocMergerJobManager] sees of the system: the pid file
    ([None]: absent), the live processes, the processes [os.kill] may not
    signal (it raises PermissionError), whether docmerger.py exists, and the
    pid the next [subprocess.Popen] gets.  A process terminated by a signal
    is modelled as gone. *)
Record jm_state : Type := {
  pid_file : json_file;
  procs : list Z;
  protected : list Z;
  script_exists : bool;
  next_pid : Z
}.

Record job_status : Type := {
  running : bool;
  js_pid : option json;
  js_started_at : option json;
  js_interval_seconds : option json;
  js_error : option string
}.

Definition not_running (error : option string) : job_status :=
  {| running := false; js_pid := None; js_started_at := None;
     js_interval_seconds := None; js_error := error |}.

Definition set_pid_file (s : jm_state) (pf : json_file) : jm_state :=
  {| pid_file := pf; procs := procs s; protected := protected s;
     script_exists := script_exists s; next_pid := next_pid s |}.

Definition set_procs (s : jm_state) (ps : list Z) : jm_state :=
  {| pid_file := pid_file s; procs := ps; protected := protected s;
     script_exists := script_exists s; next_pid := next_pid s |}.

(** [_read_pidfile()]: [{}] when the file is missing or unreadable. *)
Definition read_pidfile (s : jm_state) : json :=
  match pid_file s with Some (Some j) => j | _ => JObj [] end.

(** [isinstance(pid, int)], with the int ([True] is the int 1). *)
Definition as_int (v : option json) : option Z :=
  match v with
  | Some (JInt z) => Some z
  | Some (JBool b) => Some (if b then 1 else 0)%Z
  | _ => None
  end.

(** [_is_pid_alive(pid)]: [os.kill(pid, 0)] succeeds or raises
    PermissionError for a live process, ProcessLookupError otherwise. *)
Definition is_pid_alive (s : jm_state) (pid : Z) : bool :=
  if (pid <=? 0)%Z then false else existsb (Z.eqb pid) (procs s).

(** [status()]; [None] when it raises ([data.get] on a non-object).
    A stale pid file is unlinked. *)
Definition status (s : jm_state) : option (job_status * jm_state) :=
  match read_pidfile s with
  | JObj data =>
      let pid := obj_get data "pid" in
      let started_at := obj_get data "started_at" in
      let interval_seconds := obj_get data "interval_seconds" in
      match as_int pid with
      | Some p =>
          if is_pid_alive s p
          then Some ({| running := true; js_pid := pid; js_started_at := started_at;
                        js_interval_seconds := interval_seconds; js_error := None |}, s)
          else Some (not_running None, set_pid_file s None)
      | None => Some (not_running None, set_pid_file s None)
      end
  | _ => None
  end.

(** [subprocess.Popen(...)]: a new live process. *)
Definition spawn (s : jm_state) : Z * jm_state :=
  (next_pid s,
   {| pid_file := pid_file s; procs := next_pid s :: procs s;
      protected := protected s; script_exists := script_exists s;
      next_pid := (next_pid s + 1)%Z |}).

(** [start(interval_seconds)], [now] being [datetime.now(...).isoformat()]. *)
Definition start (s : jm_state) (interval_seconds : Z) (now : string)
  : option (job_status * jm_state) :=
  match status s with
  | None => None
  | Some (st, s1) =>
      if running st then Some (st, s1)
      else if negb (script_exists s1)
      then Some (not_running (Some "docmerger.py not found"), s1)
      else
        let '(pid, s2) := spawn s1 in
        let payload := JObj [("pid", JInt pid); ("started_at", JStr now);
                             ("interval_seconds", JInt interval_seconds)] in
        Some ({| running := true; js_pid := Some (JInt pid);
                 js_started_at := Some (JStr now);
                 js_interval_seconds := Some (JInt interval_seconds);
                 js_error := None |},
              set_pid_file s2 (Some (Some payload)))
  end.

(** [stop()]: SIGTERM, then SIGKILL once the timeout has passed; either
    ends a process the manager may signal, and the PermissionError or
    ProcessLookupError [os.kill] raises otherwise is swallowed; then the
    pid file is unlinked.  [None] when it raises ([data.get] on a
    non-object), and for a pid [<= 0], where [os.kill] signals a process
    group, which the model leaves out. *)
Definition stop (s : jm_state) : option (job_status * jm_state) :=
  match read_pidfile s with
  | JObj data =>
      match as_int (obj_get data "pid") with
      | None => Some (not_running None, s)
      | Some pid =>
          if (pid <=? 0)%Z then None
          else
            let ps := if existsb (Z.eqb pid) (protected s) then procs s
                      else List.filter (fun q => negb (Z.eqb q pid)) (procs s) in
            Some (not_running None, set_pid_file (set_procs s ps) None)
      end
  | _ => None
  end.

End JobManager.

(** The interval [schedule_post] saves: minutes clamped to at least 1. *)
Definition schedule_interval (interval_minutes : Z) : Z :=
  let m := if (interval_minutes <? 1)%Z then 1%Z else interval_minutes in
  (m * 60)%Z.

(** The [/schedule] endpoint (src/webui/main.py): the config file it writes
    and the job manager state after it. *)
Definition schedule_post (interval_minutes : Z) (s : JobManager.jm_state) (now : string)
  : option (json_file * JobManager.jm_state) :=
  let interval_seconds := schedule_interval interval_minutes in
  let cf := save_config interval_seconds in
  match JobManager.status s with
  | None => None
  | Some (st, s1) =>
      if JobManager.running st then
        match JobManager.stop s1 with
        | None => None
        | Some (_, s2) =>
            match JobManager.start s2 interval_seconds now with
            | None => None
            | Some (_, s3) => Some (cf, s3)
            end
        end
      else Some (cf, s1)
  end.

(** ** The second driver (src/docmerger1.py) *)

Definition is_table (e : elem) : bool :=
  match e with Table _ => true | _ => false end.

(** [body.clear_content()]: every child but the [w:sectPr] removed. *)
Definition clear_content (b : body) : body := List.filter is_sectPr b.

Section Docmerger1.

(** The text of the paragraph [append_document] builds from a paragraph of
    the sub-document ([add_run(run.text)] for each run). *)
Variable copied_text : elem -> string.

(** [append_document(master, filename)] once [Document(filename)] has read
    the body [sub]: each of [sub_doc.paragraphs] becomes a new paragraph
    ([add_paragraph], before the [w:sectPr]); each of [sub_doc.tables] gets
    an empty paragraph the same way, then is appended at the end of the
    body. *)
Definition append_document (master sub : body) : body :=
  let m1 := fold_left (fun m para => insert_before_sectPr (Para (copied_text para)) m)
              (List.filter is_p sub) master in
  fold_left (fun m table => insert_before_sectPr (Para EmptyString) m ++ [table])
    (List.filter is_table sub) m1.

(** One iteration of the loop of [merge_docx_files] (lines 65-84): the page
    break comes before [append_document] opens the file. *)
Definition process_file1 (e : env) (processed : gmap string string)
    (mem : body) (filename : string) : body * list effect :=
  if negb (endswith ".docx" filename) then (mem, [])
  else
    match processed !! filename with
    | Some _ => (mem, [])
    | None =>
        let mem1 := if has_paragraphs mem then add_page_break mem else mem in
        match read_doc e filename with
        | None => (mem1, [ERead filename; ERecord filename "error";
                          ELog filename "error"])
        | Some sub =>
            let mem2 := append_document mem1 sub in
            if save_ok e filename
            then (mem2, [ERead filename; EPersist filename mem2;
                         ERecord filename "success"; ELog filename "success"])
            else (mem2, [ERead filename; ERecord filename "error";
                         ELog filename "error"])
        end
    end.

Fixpoint process_files1 (e : env) (processed : gmap string string)
    (mem : body) (names : list string) : body * list effect :=
  match names with
  | [] => (mem, [])
  | f :: rest =>
      let '(mem1, t1) := process_file1 e processed mem f in
      let '(mem2, t2) := process_files1 e processed mem1 rest in
      (mem2, t1 ++ t2)
  end.

(** [merge_docx_files()] of docmerger1.py: the effects of one pass. *)
Definition merge_docx_files1 (e : env) (d : disk) : list effect :=
  let processed := load_processed_files (ledger d) in
  let merged_document := match artifact d with
                         | Some b => b
                         | None => clear_content new_document
                         end in
  snd (process_files1 e processed merged_document (sorted_names (listing e))).

End Docmerger1.

(** The layout docmerger1.py keeps: paragraphs, then the [w:sectPr], then
    tables. *)
Definition para_sect_tables (b : body) : Prop :=
  exists ps s ts, b = ps ++ SectPr s :: ts /\
    Forall (fun x => is_p x = true) ps /\ Forall (fun x => is_table x = true) ts.

(** The number of page-break paragraphs of a body. *)
Definition count_breaks (b : body) : nat :=
  List.length (List.filter (fun x => match x with PageBreak => true | _ => false end) b).

(** ** General lemmas *)

Lemma load_update (lf : ledger_file) (f s : string) :
  load_processed_files (update_processed_file lf f s)
  = <[f := s]> (load_processed_files lf).
Proof. destruct lf as [rows|]; simpl; [rewrite fold_left_app|]; reflexivity. Qed.

Lemma in_insert_sorted (x z : string) (l : list string) :
  In z (insert_sorted x l) <-> z = x \/ In z l.
Proof.
  induction l as [|y l IH]; simpl; [intuition congruence|].
  destruct (String.leb x y); simpl; [intuition congruence|].
  rewrite IH. intuition congruence.
Qed.

Lemma in_sorted_names (z : string) (l : list string) :
  In z (sorted_names l) <-> In z l.
Proof.
  induction l as [|x l IH]; simpl; [tauto|].
  rewrite in_insert_sorted, IH. intuition.
Qed.

Lemma run_effects_app (d : disk) (t1 t2 : list effect) :
  run_effects d (t1 ++ t2) = run_effects (run_effects d t1) t2.
Proof. unfold run_effects. apply fold_left_app. Qed.

Lemma process_files_cons (e : env) p mem f rest :
  process_files e p mem (f :: rest)
  = (fst (process_files e p (fst (process_file e p mem f)) rest),
     snd (process_file e p mem f)
       ++ snd (process_files e p (fst (process_file e p mem f)) rest)).
Proof.
  simpl. destruct (process_file e p mem f) as [m1 t1]. simpl.
  destruct (process_files e p m1 rest). reflexivity.
Qed.

Lemma process_files_app (e : env) p mem l1 l2 :
  process_files e p mem (l1 ++ l2)
  = (fst (process_files e p (fst (process_files e p mem l1)) l2),
     snd (process_files e p mem l1)
       ++ snd (process_files e p (fst (process_files e p mem l1)) l2)).
Proof.
  revert mem. induction l1 as [|f l1 IH]; intros mem; simpl.
  - destruct (process_files e p mem l2); reflexivity.
  - destruct (process_file e p mem f) as [m1 t1].
    rewrite IH. destruct (process_files e p m1 l1) as [m2 t2]. simpl.
    destruct (process_files e p m2 l2). simpl. rewrite app_assoc. reflexivity.
Qed.

(** Every effect of one iteration is on behalf of its filename, which is
    a [.docx] name absent from the loaded ledger. *)
Lemma process_file_effects (e : env) p mem g ef :
  In ef (snd (process_file e p mem g)) ->
  effect_file ef = Some g /\ endswith ".docx" g = true /\ p !! g = None.
Proof.
  unfold process_file.
  destruct (endswith ".docx" g) eqn:Hx; simpl; [|tauto].
  destruct (p !! g) eqn:Hp; simpl; [tauto|].
  destruct (read_doc e g); [destruct (save_ok e g)|]; simpl;
    intros H; repeat (destruct H as [<-|H]; [simpl; auto|]); contradiction.
Qed.

Lemma process_files_effects (e : env) p mem names ef :
  In ef (snd (process_files e p mem names)) ->
  exists g, In g names /\ effect_file ef = Some g /\
            endswith ".docx" g = true /\ p !! g = None.
Proof.
  revert mem. induction names as [|f rest IH]; intros mem; simpl; [tauto|].
  destruct (process_file e p mem f) as [m1 t1] eqn:Hf.
  destruct (process_files e p m1 rest) as [m2 t2] eqn:Hr. simpl.
  intros H. apply in_app_or in H as [H|H].
  - pose proof (process_file_effects e p mem f ef) as Hp. rewrite Hf in Hp.
    destruct (Hp H) as (? & ? & ?). exists f. auto.
  - specialize (IH m1). rewrite Hr in IH. destruct (IH H) as (g & ? & ?).
    exists g. auto.
Qed.

Lemma merge_effects (e : env) (d : disk) ef :
  In ef (merge_docx_files e d) ->
  effect_file ef = None \/
  exists g, In g (listing e) /\ effect_file ef = Some g /\
            endswith ".docx" g = true /\ load_processed_files (ledger d) !! g = None.
Proof.
  unfold merge_docx_files. simpl. intros [<-|H]; [auto|].
  apply in_app_or in H as [H|[<-|[]]]; [|auto].
  apply process_files_effects in H as (g & Hin & ?). right. exists g.
  rewrite in_sorted_names in Hin. auto.
Qed.

(** Effects on behalf of other files leave a file's ledger entry alone. *)
Lemma run_effects_lookup_other (d : disk) (tr : list effect) (f : string) :
  (forall ef, In ef tr -> effect_file ef <> Some f) ->
  load_processed_files (ledger (run_effects d tr)) !! f
  = load_processed_files (ledger d) !! f.
Proof.
  revert d. induction tr as [|ef tr IH]; intros d H; [reflexivity|].
  change (run_effects d (ef :: tr)) with (run_effects (apply_effect d ef) tr).
  rewrite IH by (intros; apply H; simpl; auto).
  destruct ef; simpl; try reflexivity.
  rewrite load_update. apply lookup_insert_ne.
  intros ->. apply (H (ERecord f status)); simpl; auto.
Qed.

Lemma fold_load_row_filter (rows : list (list string)) (m : gmap string string) :
  fold_left load_row rows m
  = fold_left load_row (List.filter (fun r => Nat.eqb (List.length r) 2) rows) m.
Proof.
  revert m. induction rows as [|r rows IH]; intros m; [reflexivity|].
  destruct r as [|a [|b [|c r]]]; simpl; apply IH.
Qed.

Lemma fold_load_row_other (rows : list (list string)) (m : gmap string string) f :
  (forall r, In r rows -> match r with [n; _] => n <> f | _ => True end) ->
  fold_left load_row rows m !! f = m !! f.
Proof.
  revert m. induction rows as [|r rows IH]; intros m H; [reflexivity|].
  simpl. rewrite IH by (intros; apply H; simpl; auto).
  specialize (H r (or_introl eq_refl)).
  destruct r as [|a [|b [|c r]]]; simpl; try reflexivity.
  apply lookup_insert_ne. congruence.
Qed.

(** ** The ledger (claim C9) *)

(** C9. [load_processed_files] returns the empty mapping when the ledger
    file is missing; rows that do not have exactly two columns are skipped
    (loading gives the same mapping as loading only the two-column rows);
    and when several two-column rows name the same file, the mapping holds
    the outcome of the last one (last entry wins). *)
Theorem load_processed_files_semantics :
  load_processed_files None = ∅ /\
  (forall rows : list (list string),
     load_processed_files (Some rows)
     = load_processed_files (Some (List.filter (fun r => Nat.eqb (List.length r) 2) rows))) /\
  (forall (pre post : list (list string)) (f o : string),
     (forall r, In r post -> match r with [n; _] => n <> f | _ => True end) ->
     load_processed_files (Some (pre ++ [f; o] :: post)) !! f = Some o).
Proof.
  split; [reflexivity|]. split.
  - intros rows. apply fold_load_row_filter.
  - intros pre post f o H. simpl. rewrite fold_left_app. simpl.
    rewrite fold_load_row_other by exact H. apply lookup_insert_eq.
Qed.

Lemma load_processed_files_semantics_witness :
  load_processed_files (Some [["a.docx"; "error"]; ["x"]; ["a.docx"; "success"];
                             ["b.docx"; "success"; "extra"]]) !! "a.docx"
  = Some "success".
Proof.
  apply (proj2 (proj2 load_processed_files_semantics)
           [["a.docx"; "error"]; ["x"]] [["b.docx"; "success"; "extra"]]
           "a.docx" "success").
  intros r [<-|[]]; exact I.
Defined.

(** ** Skipping: recorded files and the extension filter (claims C1, C10) *)

(** C1. At-most-once processing: when a filename already has an entry in
    the ledger loaded at the start of the pass (whatever its outcome), the
    iteration for it changes nothing and emits nothing, no effect of the
    pass (read, persist, record, log) is on its behalf, and its ledger
    entry after the pass is the one it had before. *)
Theorem recorded_file_never_reattempted (e : env) (d : disk) (f : string) :
  is_Some (load_processed_files (ledger d) !! f) ->
  (forall mem, process_file e (load_processed_files (ledger d)) mem f = (mem, [])) /\
  (forall ef, In ef (merge_docx_files e d) -> effect_file ef <> Some f) /\
  load_processed_files (ledger (run_pass e d)) !! f
  = load_processed_files (ledger d) !! f.
Proof.
  intros [o Ho].
  assert (Hno : forall ef, In ef (merge_docx_files e d) -> effect_file ef <> Some f).
  { intros ef Hin Hef. apply merge_effects in Hin as [Hn|(g & _ & Hg & _ & Hl)].
    - congruence.
    - rewrite Hef in Hg. injection Hg as <-. congruence. }
  split; [|split; [exact Hno|]].
  - intros mem. unfold process_file. rewrite Ho.
    destruct (endswith ".docx" f); reflexivity.
  - apply run_effects_lookup_other. exact Hno.
Qed.

Lemma recorded_file_never_reattempted_witness :
  let d := {| artifact := Some [SectPr "default"; Para "A"; SectPr "a"];
              ledger := Some [["a.docx"; "error"]] |} in
  let e := env_of [("a.docx", doc_of "a" ["A"])] [] [] in
  merge_docx_files e d = [EStart; EFinish] /\
  ((forall mem, process_file e (load_processed_files (ledger d)) mem "a.docx" = (mem, [])) /\
   (forall ef, In ef (merge_docx_files e d) -> effect_file ef <> Some "a.docx") /\
   load_processed_files (ledger (run_pass e d)) !! "a.docx"
   = load_processed_files (ledger d) !! "a.docx").
Proof.
  intros d e. split; [vm_compute; reflexivity|].
  apply recorded_file_never_reattempted. exists "error". vm_compute. reflexivity.
Defined.

(** C10. The extension filter is case-sensitive: a name that does not end
    in the exact suffix [.docx] is skipped by its iteration (nothing read,
    appended, persisted or recorded), no effect of a pass is on its behalf,
    and its ledger entry is unchanged by the pass; yet the dashboard's
    upload stores such a name, e.g. [REPORT.DOCX], into the input folder. *)
Theorem docx_filter_case_sensitive (e : env) (d : disk) (f : string) :
  endswith ".docx" f = false ->
  (forall p mem, process_file e p mem f = (mem, [])) /\
  (forall ef, In ef (merge_docx_files e d) -> effect_file ef <> Some f) /\
  load_processed_files (ledger (run_pass e d)) !! f
  = load_processed_files (ledger d) !! f /\
  upload_post "REPORT.DOCX" [] = Some "REPORT.DOCX".
Proof.
  intros Hx.
  assert (Hno : forall ef, In ef (merge_docx_files e d) -> effect_file ef <> Some f).
  { intros ef Hin Hef. apply merge_effects in Hin as [Hn|(g & _ & Hg & Hgx & _)].
    - congruence.
    - rewrite Hef in Hg. injection Hg as <-. congruence. }
  split; [|split; [exact Hno|split]].
  - intros p mem. unfold process_file. rewrite Hx. reflexivity.
  - apply run_effects_lookup_other. exact Hno.
  - vm_compute. reflexivity.
Qed.

Lemma docx_filter_case_sensitive_witness :
  let e := env_of [("REPORT.DOCX", doc_of "r" ["R"]); ("a.docx", doc_of "a" ["A"])] [] [] in
  merge_docx_files e empty_disk
  = [EStart; ERead "a.docx";
     EPersist "a.docx" [SectPr "default"; Para "A"; SectPr "a"];
     ERecord "a.docx" "success"; ELog "a.docx" "success"; EFinish] /\
  ((forall p mem, process_file e p mem "REPORT.DOCX" = (mem, [])) /\
   (forall ef, In ef (merge_docx_files e empty_disk) -> effect_file ef <> Some "REPORT.DOCX") /\
   load_processed_files (ledger (run_pass e empty_disk)) !! "REPORT.DOCX"
   = load_processed_files (ledger empty_disk) !! "REPORT.DOCX" /\
   upload_post "REPORT.DOCX" [] = Some "REPORT.DOCX").
Proof.
  intros e. split; [vm_compute; reflexivity|].
  apply docx_filter_case_sensitive. vm_compute. reflexivity.
Defined.

(** ** Persist before record (claim C5) *)

Lemma persist_precedes_success_app (e : env) (l1 l2 : list effect) :
  persist_precedes_success e l1 -> persist_precedes_success e l2 ->
  (forall f, l2 !! 0 <> Some (ERecord f "success")) ->
  persist_precedes_success e (l1 ++ l2).
Proof.
  intros H1 H2 H0 k f Hk. rewrite lookup_app in Hk.
  destruct (l1 !! k) as [x|] eqn:E.
  - injection Hk as ->. destruct (H1 k f E) as (i & b & bl & pre & -> & Hi & Hr & Hb).
    exists i, b, bl, pre. split; [reflexivity|]. split; [|auto].
    apply lookup_app_l_Some. exact Hi.
  - apply lookup_ge_None in E.
    destruct (k - length l1) as [|j] eqn:Ej; [exfalso; exact (H0 f Hk)|].
    destruct (H2 (S j) f Hk) as (i & b & bl & pre & Hij & Hi & Hr & Hb).
    injection Hij as <-.
    exists (length l1 + j), b, bl, pre. split; [lia|]. split; [|auto].
    rewrite lookup_app_r by lia. replace (length l1 + j - length l1) with j by lia.
    exact Hi.
Qed.

Lemma process_file_head (e : env) p mem g x :
  snd (process_file e p mem g) !! 0 = Some x -> x = ERead g.
Proof.
  unfold process_file.
  destruct (endswith ".docx" g); simpl; [|discriminate].
  destruct (p !! g); simpl; [discriminate|].
  destruct (read_doc e g); [destruct (save_ok e g)|]; simpl; congruence.
Qed.

Lemma process_files_head (e : env) p mem names f :
  snd (process_files e p mem names) !! 0 <> Some (ERecord f "success").
Proof.
  revert mem. induction names as [|g rest IH]; intros mem; [discriminate|].
  rewrite process_files_cons. simpl. rewrite lookup_app.
  destruct (snd (process_file e p mem g) !! 0) as [x|] eqn:E.
  - apply process_file_head in E as ->. discriminate.
  - apply IH.
Qed.

Lemma process_file_ppc (e : env) p mem g :
  persist_precedes_success e (snd (process_file e p mem g)).
Proof.
  unfold process_file.
  destruct (endswith ".docx" g); simpl; [|intros k f H; discriminate].
  destruct (p !! g); simpl; [intros k f H; discriminate|].
  destruct (read_doc e g) as [sub|] eqn:Er; [destruct (save_ok e g)|]; simpl;
    intros k f H; destruct k as [|[|[|[|k]]]]; simpl in H; try discriminate.
  injection H as <-.
  eexists 1, _, sub, _. split; [reflexivity|]. split; [reflexivity|]. auto.
Qed.

Lemma process_files_ppc (e : env) p mem names :
  persist_precedes_success e (snd (process_files e p mem names)).
Proof.
  revert mem. induction names as [|g rest IH]; intros mem.
  - intros k f H. discriminate.
  - rewrite process_files_cons. simpl.
    apply persist_precedes_success_app; [apply process_file_ppc|apply IH|].
    intros f. apply process_files_head.
Qed.

(** C5. Ledger and artifact in lockstep: in the effects of a pass, every
    [success] record for a file comes immediately after the persist made
    for that same file, whose body ends with the file's blocks; so the
    artifact is saved once per merged file, and no prefix of the effects
    (no state a crash can leave) has the record without that persist. *)
Theorem success_recorded_after_persist (e : env) (d : disk) (k : nat) (f : string) :
  merge_docx_files e d !! k = Some (ERecord f "success") ->
  exists i b blocks pre, k = S i /\
    merge_docx_files e d !! i = Some (EPersist f b) /\
    read_doc e f = Some blocks /\ b = pre ++ blocks.
Proof.
  revert k f. unfold merge_docx_files.
  change (persist_precedes_success e
            ([EStart] ++ snd (process_files e (load_processed_files (ledger d))
                                (match artifact d with Some b => b | None => new_document end)
                                (sorted_names (listing e))) ++ [EFinish])).
  apply persist_precedes_success_app; [intros k f H; destruct k; discriminate| |].
  - apply persist_precedes_success_app; [apply process_files_ppc| |].
    + intros k f H. destruct k as [|[]]; discriminate.
    + intros f H. discriminate.
  - intros f. rewrite lookup_app.
    destruct (snd _ !! 0) as [x|] eqn:E.
    + intros Hx. injection Hx as ->. revert E. apply process_files_head.
    + discriminate.
Qed.

Lemma success_recorded_after_persist_witness :
  let e := env_of [("b.docx", doc_of "b" ["B"]); ("a.docx", doc_of "a" ["A"])] [] [] in
  merge_docx_files e empty_disk !! 7 = Some (ERecord "b.docx" "success") /\
  exists i b blocks pre, 7 = S i /\
    merge_docx_files e empty_disk !! i = Some (EPersist "b.docx" b) /\
    read_doc e "b.docx" = Some blocks /\ b = pre ++ blocks.
Proof.
  intros e. split; [vm_compute; reflexivity|].
  apply success_recorded_after_persist. vm_compute. reflexivity.
Defined.

(** ** Idempotent re-run (claim C8) *)

Lemma run_effects_lookup_mono (d : disk) (tr : list effect) (g : string) :
  is_Some (load_processed_files (ledger d) !! g) ->
  is_Some (load_processed_files (ledger (run_effects d tr)) !! g).
Proof.
  revert d. induction tr as [|ef tr IH]; intros d H; [exact H|].
  change (run_effects d (ef :: tr)) with (run_effects (apply_effect d ef) tr).
  apply IH. destruct ef; simpl; try exact H.
  rewrite load_update. apply lookup_insert_is_Some'. auto.
Qed.

Lemma run_effects_recorded (d : disk) (tr : list effect) (g s : string) :
  In (ERecord g s) tr ->
  is_Some (load_processed_files (ledger (run_effects d tr)) !! g).
Proof.
  revert d. induction tr as [|ef tr IH]; intros d H; [destruct H|].
  change (run_effects d (ef :: tr)) with (run_effects (apply_effect d ef) tr).
  destruct H as [->|H]; [|apply IH; exact H].
  apply run_effects_lookup_mono. simpl. rewrite load_update.
  apply lookup_insert_is_Some'. auto.
Qed.

(** Every [.docx] name the loaded ledger lacks gets a record in the pass. *)
Lemma process_files_records (e : env) p mem names g :
  In g names -> endswith ".docx" g = true -> p !! g = None ->
  exists s, In (ERecord g s) (snd (process_files e p mem names)).
Proof.
  revert mem. induction names as [|f rest IH]; intros mem Hin Hx Hp; [destruct Hin|].
  rewrite process_files_cons. simpl.
  destruct Hin as [<-|Hin].
  - unfold process_file. rewrite Hx, Hp. simpl.
    destruct (read_doc e f); [destruct (save_ok e f)|]; simpl; eauto 6.
  - destruct (IH (fst (process_file e p mem f)) Hin Hx Hp) as [s Hs].
    exists s. apply in_or_app. auto.
Qed.

(** When every [.docx] name is in the loaded ledger, the loop is a no-op. *)
Lemma process_files_all_recorded (e : env) p mem names :
  (forall g, In g names -> endswith ".docx" g = true -> is_Some (p !! g)) ->
  process_files e p mem names = (mem, []).
Proof.
  revert mem. induction names as [|f rest IH]; intros mem H; [reflexivity|].
  simpl. assert (Hf : process_file e p mem f = (mem, [])).
  { unfold process_file. destruct (endswith ".docx" f) eqn:Hx; [|reflexivity].
    destruct (H f (or_introl eq_refl) Hx) as [o Ho]. simpl. rewrite Ho. reflexivity. }
  rewrite Hf, IH by (intros; apply H; simpl; auto). reflexivity.
Qed.

(** After a pass, every [.docx] name of the listing has a ledger entry. *)
Lemma run_pass_records_all (e : env) (d : disk) g :
  In g (listing e) -> endswith ".docx" g = true ->
  is_Some (load_processed_files (ledger (run_pass e d)) !! g).
Proof.
  intros Hin Hx. unfold run_pass.
  destruct (load_processed_files (ledger d) !! g) as [o|] eqn:Hg.
  - apply run_effects_lookup_mono. rewrite Hg. eauto.
  - rewrite <- in_sorted_names in Hin.
    destruct (process_files_records e (load_processed_files (ledger d))
                (match artifact d with Some b => b | None => new_document end)
                _ g Hin Hx Hg) as [s Hs].
    apply (run_effects_recorded _ _ g s). unfold merge_docx_files.
    right. apply in_or_app. left. exact Hs.
Qed.

(** C8. Idempotent re-run: a second pass over the same input files (so
    every candidate now has a ledger entry) reads, persists and records
    nothing: its only effects are the pass-start and pass-end log lines,
    and it leaves the output file and the ledger as the first pass left
    them. *)
Theorem second_pass_idempotent (e : env) (d : disk) :
  merge_docx_files e (run_pass e d) = [EStart; EFinish] /\
  run_pass e (run_pass e d) = run_pass e d.
Proof.
  assert (H : merge_docx_files e (run_pass e d) = [EStart; EFinish]).
  { unfold merge_docx_files at 1.
    rewrite process_files_all_recorded; [reflexivity|].
    intros g Hin Hx. rewrite in_sorted_names in Hin.
    apply run_pass_records_all; assumption. }
  split; [exact H|]. unfold run_pass at 1. rewrite H. reflexivity.
Qed.

(** ** Growth of the artifact and outcomes of a pass *)

Lemma strip_app (x y : body) :
  strip_breaks (x ++ y) = strip_breaks x ++ strip_breaks y.
Proof.
  unfold strip_breaks. induction x as [|a x IH]; [reflexivity|].
  destruct a; simpl; rewrite ?IH; reflexivity.
Qed.

Lemma strip_add_page_break (b : body) :
  strip_breaks (add_page_break b) = strip_breaks b.
Proof.
  unfold add_page_break. induction b as [|a b IH]; [reflexivity|].
  unfold strip_breaks in *. simpl.
  destruct (is_sectPr a); [reflexivity|].
  destruct a; simpl; rewrite ?IH; reflexivity.
Qed.

Lemma grows_refl (a : body) : grows a a.
Proof. exists []. symmetry. apply app_nil_r. Qed.

Lemma grows_trans (a b c : body) : grows a b -> grows b c -> grows a c.
Proof.
  intros [z1 H1] [z2 H2]. exists (z1 ++ z2). rewrite H2, H1, app_assoc. reflexivity.
Qed.

(** Lines 93-98: the page break and the appended elements. *)
Lemma merge_step_strip (mem sub : body) :
  strip_breaks ((if has_paragraphs mem then add_page_break mem else mem) ++ sub)
  = strip_breaks mem ++ strip_breaks sub.
Proof.
  rewrite strip_app. destruct (has_paragraphs mem); [rewrite strip_add_page_break|];
    reflexivity.
Qed.

Lemma process_file_grows (e : env) p mem g :
  grows mem (fst (process_file e p mem g)).
Proof.
  unfold process_file.
  destruct (endswith ".docx" g); simpl; [|apply grows_refl].
  destruct (p !! g); simpl; [apply grows_refl|].
  destruct (read_doc e g) as [sub|]; [|apply grows_refl].
  exists (strip_breaks sub). destruct (save_ok e g); apply merge_step_strip.
Qed.

Lemma process_file_success (e : env) p mem f bl :
  endswith ".docx" f = true -> p !! f = None ->
  read_doc e f = Some bl -> save_ok e f = true ->
  process_file e p mem f
  = (((if has_paragraphs mem then add_page_break mem else mem) ++ bl),
     [ERead f;
      EPersist f ((if has_paragraphs mem then add_page_break mem else mem) ++ bl);
      ERecord f "success"; ELog f "success"]).
Proof. intros H1 H2 H3 H4. unfold process_file. rewrite H1, H2, H3, H4. reflexivity. Qed.










(** ** Error isolation (claim C6) *)



(** ** Interrupted passes and failed saves (claims C2, C3) *)

Lemma process_files_grows (e : env) p mem names :
  grows mem (fst (process_files e p mem names)).
Proof.
  revert mem. induction names as [|f rest IH]; intros mem; [apply grows_refl|].
  rewrite process_files_cons. cbn [fst].
  eapply grows_trans; [apply process_file_grows|apply IH].
Qed.

Lemma process_file_persist (e : env) p mem g f b :
  In (EPersist f b) (snd (process_file e p mem g)) ->
  exists bl pre, read_doc e f = Some bl /\ save_ok e f = true /\ b = pre ++ bl.
Proof.
  intros H. destruct (process_file_effects _ _ _ _ _ H) as [Hg _].
  simpl in Hg. injection Hg as <-.
  unfold process_file in H.
  destruct (endswith ".docx" f); simpl in H; [|contradiction].
  destruct (p !! f); simpl in H; [contradiction|].
  destruct (read_doc e f) as [sub|]; [destruct (save_ok e f) eqn:Hs|]; simpl in H;
    intuition try congruence.
  match goal with Hp : EPersist _ _ = EPersist _ _ |- _ => injection Hp as <- end.
  eauto.
Qed.

Lemma merge_persist (e : env) (d : disk) f b :
  In (EPersist f b) (merge_docx_files e d) ->
  exists bl pre, read_doc e f = Some bl /\ save_ok e f = true /\ b = pre ++ bl.
Proof.
  unfold merge_docx_files. intros [H|H]; [discriminate|].
  apply in_app_or in H as [H|[H|[]]]; [|discriminate].
  revert H. generalize (match artifact d with Some b => b | None => new_document end).
  induction (sorted_names (listing e)) as [|g rest IH]; intros mem H; [destruct H|].
  rewrite process_files_cons in H. apply in_app_or in H as [H|H].
  - eapply process_file_persist. exact H.
  - eapply IH. exact H.
Qed.

(** A [.docx] name missing from the ledger is merged again by the next
    pass, after everything the output file already holds. *)
Lemma rerun_reappends (e : env) (d : disk) (a : string) (art bl : body) :
  artifact d = Some art -> In a (listing e) -> endswith ".docx" a = true ->
  load_processed_files (ledger d) !! a = None ->
  read_doc e a = Some bl -> save_ok e a = true ->
  exists b mid, In (EPersist a b) (merge_docx_files e d) /\
                strip_breaks b = strip_breaks art ++ mid ++ strip_breaks bl.
Proof.
  intros Hart Hin Hx Ha Hr Hs.
  rewrite <- in_sorted_names in Hin. apply in_split in Hin as (pre & post & Hsplit).
  unfold merge_docx_files. rewrite Hsplit, Hart.
  set (p := load_processed_files (ledger d)).
  rewrite process_files_app. cbn [fst snd]. rewrite process_files_cons.
  rewrite (process_file_success e p _ a bl Hx Ha Hr Hs). cbn [fst snd].
  destruct (process_files_grows e p art pre) as [mid Hmid].
  eexists _, mid. split.
  - right. apply in_or_app. left. apply in_or_app. right. simpl. auto.
  - rewrite merge_step_strip, Hmid, app_assoc. reflexivity.
Qed.

(** C2 (as the code behaves). A pass killed right after the persist for a
    file [a], before [a] is recorded, leaves the output file ending with
    [a]'s blocks and no ledger entry for [a]; the next pass over the same
    inputs merges [a] again: it persists a body that holds, separators
    aside, [a]'s blocks twice. *)
Theorem crash_then_rerun_reappends (e : env) (d : disk) (k : nat) (a : string) (b0 : body) :
  merge_docx_files e d !! k = Some (EPersist a b0) ->
  load_processed_files (ledger (run_pass_crash (S k) e d)) !! a = None ->
  exists bl pre b mid,
    read_doc e a = Some bl /\
    artifact (run_pass_crash (S k) e d) = Some (pre ++ bl) /\
    In (EPersist a b) (merge_docx_files e (run_pass_crash (S k) e d)) /\
    strip_breaks b = strip_breaks pre ++ strip_breaks bl ++ mid ++ strip_breaks bl.
Proof.
  intros Hk Hled.
  assert (Hin : In (EPersist a b0) (merge_docx_files e d)).
  { apply list_elem_of_In. eapply list_elem_of_lookup_2. exact Hk. }
  destruct (merge_persist e d a b0 Hin) as (bl & pre & Hr & Hs & ->).
  destruct (merge_effects e d _ Hin) as [Hn|(g & Hg & Heq & Hx & _)]; [discriminate|].
  simpl in Heq. injection Heq as <-.
  assert (Hart : artifact (run_pass_crash (S k) e d) = Some (pre ++ bl)).
  { unfold run_pass_crash. rewrite (take_S_r _ _ _ Hk), run_effects_app. reflexivity. }
  destruct (rerun_reappends e _ a _ bl Hart Hg Hx Hled Hr Hs) as (b & mid & Hb & Hstrip).
  exists bl, pre, b, mid. split; [exact Hr|]. split; [exact Hart|]. split; [exact Hb|].
  rewrite Hstrip, strip_app, <- app_assoc. reflexivity.
Qed.

Lemma crash_then_rerun_reappends_witness :
  let e := env_of [("a.docx", doc_of "a" ["A"])] [] [] in
  merge_docx_files e empty_disk !! 2
    = Some (EPersist "a.docx" [SectPr "default"; Para "A"; SectPr "a"]) /\
  load_processed_files (ledger (run_pass_crash 3 e empty_disk)) !! "a.docx" = None /\
  exists bl pre b mid,
    read_doc e "a.docx" = Some bl /\
    artifact (run_pass_crash 3 e empty_disk) = Some (pre ++ bl) /\
    In (EPersist "a.docx" b) (merge_docx_files e (run_pass_crash 3 e empty_disk)) /\
    strip_breaks b = strip_breaks pre ++ strip_breaks bl ++ mid ++ strip_breaks bl.
Proof.
  intros e. split; [vm_compute; reflexivity|]. split; [vm_compute; reflexivity|].
  apply (crash_then_rerun_reappends e empty_disk 2 "a.docx"
           [SectPr "default"; Para "A"; SectPr "a"]); vm_compute; reflexivity.
Defined.

(** C2 refuted: with one input [a.docx], a pass killed after its persist
    (the first three effects) leaves [a.docx]'s paragraph in the output and
    no ledger entry; the next pass appends the paragraph a second time. *)
Lemma crash_after_persist_duplicates :
  let e := env_of [("a.docx", doc_of "a" ["A"])] [] [] in
  run_pass_crash 3 e empty_disk
  = {| artifact := Some [SectPr "default"; Para "A"; SectPr "a"]; ledger := None |} /\
  run_pass e (run_pass_crash 3 e empty_disk)
  = {| artifact := Some [PageBreak; SectPr "default"; Para "A"; SectPr "a";
                         Para "A"; SectPr "a"];
       ledger := Some [["a.docx"; "success"]] |}.
Proof. split; vm_compute; reflexivity. Qed.

Lemma strip_process_file (e : env) p mem f :
  strip_breaks (fst (process_file e p mem f))
  = strip_breaks mem
    ++ (if unrecorded_candidate p f
        then match read_doc e f with Some sub => strip_breaks sub | None => [] end
        else []).
Proof.
  unfold process_file, unrecorded_candidate.
  destruct (endswith ".docx" f); simpl; [|rewrite app_nil_r; reflexivity].
  destruct (p !! f); simpl; [rewrite app_nil_r; reflexivity|].
  destruct (read_doc e f) as [sub|]; [|rewrite app_nil_r; reflexivity].
  destruct (save_ok e f); apply merge_step_strip.
Qed.

Lemma strip_process_files (e : env) p mem names :
  strip_breaks (fst (process_files e p mem names))
  = strip_breaks mem ++ merged_blocks e p names.
Proof.
  revert mem. induction names as [|f rest IH]; intros mem.
  - simpl. rewrite app_nil_r. reflexivity.
  - rewrite process_files_cons. cbn [fst merged_blocks].
    rewrite IH, strip_process_file, app_assoc. reflexivity.
Qed.

Lemma count_breaks_app (x y : body) :
  count_breaks (x ++ y) = (count_breaks x + count_breaks y)%nat.
Proof. unfold count_breaks. rewrite List.filter_app, List.length_app. reflexivity. Qed.

Lemma count_breaks_insert (x : elem) (b : body) :
  count_breaks (insert_before_sectPr x b) = count_breaks (x :: b).
Proof.
  induction b as [|a b IH]; [reflexivity|]. simpl.
  destruct (is_sectPr a); [reflexivity|].
  change (a :: insert_before_sectPr x b) with ([a] ++ insert_before_sectPr x b).
  rewrite count_breaks_app, IH.
  change (x :: a :: b) with ([x] ++ [a] ++ b). change (x :: b) with ([x] ++ b).
  rewrite !count_breaks_app. lia.
Qed.

Lemma count_breaks_add_page_break (b : body) :
  count_breaks (add_page_break b) = S (count_breaks b).
Proof. unfold add_page_break. rewrite count_breaks_insert. reflexivity. Qed.











(** ** Separators and order (claims C4, C7) *)

(** C4 at concrete inputs.  A first file whose body has a table and no
    paragraph leaves [merged_document.paragraphs] empty, so no page break is
    added before the second file.  With two ordinary documents, the page
    break [add_page_break] inserts goes before the output's first
    [w:sectPr], at the head of the body, ahead of the first file's
    content, while the second file's elements are appended at the end. *)
Lemma separator_placement_counterexample :
  artifact (run_pass (env_of [("a.docx", [Table "t"; SectPr "a"]);
                              ("b.docx", doc_of "b" ["B"])] [] []) empty_disk)
  = Some [SectPr "default"; Table "t"; SectPr "a"; Para "B"; SectPr "b"] /\
  artifact (run_pass (env_of [("a.docx", doc_of "a" ["A"]);
                              ("b.docx", doc_of "b" ["B"])] [] []) empty_disk)
  = Some [PageBreak; SectPr "default"; Para "A"; SectPr "a"; Para "B"; SectPr "b"].
Proof. split; vm_compute; reflexivity. Qed.

(** C7 at concrete inputs.  For [a.docx] (a table), [b.docx] and [c.docx]
    present from the start, one pass and two passes ([a.docx] alone first)
    give the same output, but its order is not [a], separator, [b],
    separator, [c]: nothing separates [a] from [b], and the one page break
    sits at the head.  With three ordinary documents both page breaks sit
    at the head. *)
Lemma ordering_counterexample :
  let all := env_of [("a.docx", [Table "t"; SectPr "a"]); ("b.docx", doc_of "b" ["B"]);
                     ("c.docx", doc_of "c" ["C"])] [] [] in
  let first := env_of [("a.docx", [Table "t"; SectPr "a"])] [] [] in
  let plain := env_of [("a.docx", doc_of "a" ["A"]); ("b.docx", doc_of "b" ["B"]);
                       ("c.docx", doc_of "c" ["C"])] [] [] in
  let plain_first := env_of [("a.docx", doc_of "a" ["A"])] [] [] in
  artifact (run_pass all empty_disk)
  = Some [PageBreak; SectPr "default"; Table "t"; SectPr "a"; Para "B"; SectPr "b";
          Para "C"; SectPr "c"] /\
  run_pass all (run_pass first empty_disk) = run_pass all empty_disk /\
  artifact (run_pass plain empty_disk)
  = Some [PageBreak; PageBreak; SectPr "default"; Para "A"; SectPr "a";
          Para "B"; SectPr "b"; Para "C"; SectPr "c"] /\
  run_pass plain (run_pass plain_first empty_disk) = run_pass plain empty_disk.
Proof. repeat split; vm_compute; reflexivity. Qed.

(** * Further properties of the code *)

(** ** What the output file holds after a pass *)

Lemma disk_view_process_file (e : env) p mem f (d : disk) :
  save_ok e f = true -> disk_view d = mem ->
  disk_view (run_effects d (snd (process_file e p mem f))) = fst (process_file e p mem f).
Proof.
  intros Hs Hd. unfold process_file.
  destruct (endswith ".docx" f); simpl; [|exact Hd].
  destruct (p !! f); simpl; [exact Hd|].
  destruct (read_doc e f); [rewrite Hs|]; exact Hd || reflexivity.
Qed.

Lemma disk_view_process_files (e : env) p names :
  forall mem (d : disk), (forall f, In f names -> save_ok e f = true) ->
  disk_view d = mem ->
  disk_view (run_effects d (snd (process_files e p mem names)))
  = fst (process_files e p mem names).
Proof.
  induction names as [|f rest IH]; intros mem d Hs Hd; [exact Hd|].
  rewrite process_files_cons. cbn [fst snd]. rewrite run_effects_app.
  apply IH; [intros; apply Hs; simpl; auto|].
  apply disk_view_process_file; [apply Hs; simpl; auto|exact Hd].
Qed.

(** X2. When every save succeeds, the output file after a pass holds,
    separators aside, what it held before, followed by the body of every
    file the pass merged, in sorted name order: files not skipped whose
    [Document(file_path)] succeeds. *)
Theorem pass_appends_in_name_order (e : env) (d : disk) :
  (forall f, In f (listing e) -> save_ok e f = true) ->
  strip_breaks (disk_view (run_pass e d))
  = strip_breaks (disk_view d)
    ++ merged_blocks e (load_processed_files (ledger d)) (sorted_names (listing e)).
Proof.
  intros Hs. unfold run_pass, merge_docx_files.
  change (EStart :: ?x) with ([EStart] ++ x).
  rewrite !run_effects_app.
  change (run_effects d [EStart]) with d.
  change (match artifact d with Some b => b | None => new_document end)
    with (disk_view d).
  change (disk_view (run_effects ?d' [EFinish])) with (disk_view d').
  rewrite disk_view_process_files; [apply strip_process_files| |reflexivity].
  intros f Hf. apply Hs. apply in_sorted_names. exact Hf.
Qed.

Lemma pass_appends_in_name_order_witness :
  strip_breaks (disk_view (run_pass
    (env_of [("b.docx", doc_of "B" ["b"]); ("a.docx", doc_of "A" ["a"])] [] [])
    empty_disk))
  = strip_breaks (disk_view empty_disk)
    ++ merged_blocks
         (env_of [("b.docx", doc_of "B" ["b"]); ("a.docx", doc_of "A" ["a"])] [] [])
         (load_processed_files (ledger empty_disk))
         (sorted_names ["b.docx"; "a.docx"]).
Proof.
  apply (pass_appends_in_name_order
           (env_of [("b.docx", doc_of "B" ["b"]); ("a.docx", doc_of "A" ["a"])] [] [])
           empty_disk).
  intros f _. reflexivity.
Defined.

(** ** The dashboard ledger view (src/webui/main.py) *)

Lemma read_rows_length (max_rows : Z) (rows : list (list string)) (raises : bool) :
  forall i r, read_rows max_rows i rows raises = Some r ->
  (List.length r <= Z.to_nat (max_rows - i))%nat.
Proof.
  induction rows as [|row rest IH]; intros i r H; simpl in H.
  - destruct raises; [discriminate|]. injection H as <-. simpl. lia.
  - destruct (Z.leb_spec max_rows i) as [Hle|Hlt].
    + injection H as <-. simpl. lia.
    + destruct row as [|a [|b [|c row]]];
        try (specialize (IH _ _ H); lia).
      destruct (read_rows max_rows (i + 1) rest raises) as [tl|] eqn:Ht;
        [|discriminate].
      injection H as <-. specialize (IH _ _ Ht). simpl. lia.
Qed.

(** X5. [_read_processed(max_rows)] returns at most [max_rows] rows, and
    none when [max_rows <= 0]. *)
Theorem read_processed_bounded (f : csv_read) (max_rows : Z) :
  (List.length (read_processed f max_rows) <= Z.to_nat max_rows)%nat.
Proof.
  destruct f as [|rows raises]; simpl; [lia|].
  destruct (read_rows max_rows 0 rows raises) as [r|] eqn:H; [|simpl; lia].
  apply read_rows_length in H. lia.
Qed.

Lemma read_rows_prefix (max_rows : Z) (rows : list (list string)) (raises : bool) :
  forall i, (Z.to_nat (max_rows - i) < List.length rows)%nat ->
  read_rows max_rows i rows raises
  = Some (two_column_pairs (firstn (Z.to_nat (max_rows - i)) rows)).
Proof.
  induction rows as [|row rest IH]; intros i H; simpl in H; [lia|].
  simpl. destruct (Z.leb_spec max_rows i) as [Hle|Hlt].
  - replace (Z.to_nat (max_rows - i)) with 0%nat by lia. reflexivity.
  - replace (Z.to_nat (max_rows - i)) with (S (Z.to_nat (max_rows - (i + 1)))) by lia.
    rewrite IH by lia. simpl.
    destruct row as [|a [|b [|c row]]]; reflexivity.
Qed.

(** X6. When processed.csv has more than [max_rows] rows,
    [_read_processed(max_rows)] returns the two-column rows among the
    first [max_rows] rows, in file order, whatever follows them (later
    rows, or a read error): rows written after the first [max_rows] never
    reach the dashboard. *)
Theorem read_processed_first_rows (rows : list (list string)) (raises : bool)
    (max_rows : Z) :
  (Z.to_nat max_rows < List.length rows)%nat ->
  read_processed (CsvRows rows raises) max_rows
  = two_column_pairs (firstn (Z.to_nat max_rows) rows).
Proof.
  intros H. simpl. rewrite read_rows_prefix; rewrite ?Z.sub_0_r; [reflexivity|lia].
Qed.

Lemma read_processed_first_rows_witness :
  (Z.to_nat 2 < List.length [["a.docx"; "success"]; ["bad"]; ["b.docx"; "error"]])%nat /\
  read_processed (CsvRows [["a.docx"; "success"]; ["bad"]; ["b.docx"; "error"]] true) 2
  = [("a.docx", "success")].
Proof.
  split; [vm_compute; lia|].
  rewrite (read_processed_first_rows
             [["a.docx"; "success"]; ["bad"]; ["b.docx"; "error"]] true 2)
    by (vm_compute; lia).
  reflexivity.
Defined.

(** ** The upload check (src/webui/main.py, src/webui/utils.py) *)

Lemma split_on_no_sep (c : Ascii.ascii) (s : string) :
  forall p, In p (split_on c s) -> ~ In c (list_ascii_of_string p).
Proof.
  induction s as [|x rest IH]; intros p H; simpl in H.
  - destruct H as [<-|[]]. simpl. tauto.
  - destruct (Ascii.eqb x c) eqn:Hx.
    + destruct H as [<-|H]; [simpl; tauto|]. apply IH. exact H.
    + apply Ascii.eqb_neq in Hx.
      destruct (split_on c rest) as [|q qs] eqn:Hs.
      * destruct H as [<-|[]]. simpl. intuition.
      * destruct H as [<-|H].
        -- simpl. intros [Hc|Hc]; [congruence|].
           apply (IH q); [left; reflexivity|exact Hc].
        -- apply IH. right. exact H.
Qed.

Lemma last_in_or_default {A} (l : list A) (d : A) :
  In (List.last l d) l \/ List.last l d = d.
Proof.
  induction l as [|x l IH]; [auto|].
  destruct l as [|y l]; [simpl; auto|].
  change (List.last (x :: y :: l) d) with (List.last (y :: l) d).
  destruct IH as [H|H]; [left; right; exact H|right; exact H].
Qed.

Lemma safe_filename_no_slash (name : string) :
  ~ In "/"%char (list_ascii_of_string (safe_filename name)).
Proof.
  unfold safe_filename.
  destruct (last_in_or_default
              (List.filter (fun p => negb (String.eqb p EmptyString) && negb (String.eqb p "."))
                 (split_on "/"%char name)) EmptyString) as [H|H].
  - apply filter_In in H as [H _]. exact (split_on_no_sep _ _ _ H).
  - rewrite H. simpl. tauto.
Qed.

(** X7. A name [upload_post] stores the upload under has no [/] (it stays
    in the input folder), is not the name of a file already there (nothing
    is overwritten), and ends in [.docx] in any letter case. *)
Theorem upload_post_stored_name (filename : string) (existing : list string) (name : string) :
  upload_post filename existing = Some name ->
  ~ In "/"%char (list_ascii_of_string name) /\ ~ In name existing /\
  endswith ".docx" (lower name) = true.
Proof.
  unfold upload_post.
  destruct (endswith ".docx" (lower (safe_filename filename))) eqn:He; [|discriminate].
  destruct (existsb (String.eqb (safe_filename filename)) existing) eqn:Hx;
    [discriminate|].
  simpl. intros H. injection H as <-.
  split; [apply safe_filename_no_slash|split; [|exact He]].
  intros Hin. assert (existsb (String.eqb (safe_filename filename)) existing = true)
    as Ht by (apply existsb_exists; exists (safe_filename filename);
              split; [exact Hin|apply String.eqb_refl]).
  congruence.
Qed.

Lemma upload_post_stored_name_witness :
  upload_post "../../etc/Notes.DOCX" ["a.docx"] = Some "Notes.DOCX" /\
  ~ In "/"%char (list_ascii_of_string "Notes.DOCX") /\ ~ In "Notes.DOCX" ["a.docx"] /\
  endswith ".docx" (lower "Notes.DOCX") = true.
Proof.
  split; [vm_compute; reflexivity|].
  apply (upload_post_stored_name "../../etc/Notes.DOCX" ["a.docx"] "Notes.DOCX").
  vm_compute. reflexivity.
Defined.

(** ** The configuration file (src/webui/config.py) *)

(** X8. Whatever the configuration file holds (missing, unreadable, not an
    object, a missing, null, non-numeric, zero or negative
    [interval_seconds]), [load_config] returns a positive interval. *)
Theorem load_config_positive (int_of_str int_of_float : string -> option Z)
    (cf : json_file) :
  (0 < load_config int_of_str int_of_float cf)%Z.
Proof.
  unfold load_config.
  destruct cf as [[j|]|]; try lia.
  destruct j; try lia.
  destruct (py_int int_of_str int_of_float _) as [interval|]; [|lia].
  destruct (Z.leb_spec interval 0); lia.
Qed.

(** X9. [load_config] after [save_config] gives back the saved interval
    when it is positive, and 300 otherwise. *)
Theorem save_then_load_config (int_of_str int_of_float : string -> option Z)
    (interval_seconds : Z) :
  load_config int_of_str int_of_float (save_config interval_seconds)
  = if (0 <? interval_seconds)%Z then interval_seconds else 300%Z.
Proof.
  unfold load_config, save_config. simpl.
  destruct (Z.leb_spec interval_seconds 0), (Z.ltb_spec 0 interval_seconds);
    reflexivity || lia.
Qed.

(** ** The job manager (src/webui/job_manager.py) *)

Module JobManagerFacts.
Import JobManager.
Local Open Scope Z_scope.

(** What [status()] leaves behind. *)
Lemma status_result (s s' : jm_state) (st : job_status) :
  status s = Some (st, s') ->
  procs s' = procs s /\
  ((running st = true /\ s' = s) \/ (running st = false /\ pid_file s' = None)).
Proof.
  unfold status.
  destruct (read_pidfile s); try discriminate.
  destruct (as_int (obj_get members "pid")) as [p|];
    [destruct (is_pid_alive s p)|]; intros H; injection H as <- <-; simpl; auto.
Qed.

(** X13. When [status()] reports the daemon not running and docmerger.py
    exists, [start()] spawns it and [status()] afterwards reads back from
    the pid file exactly the status [start()] returned: running, the new
    pid, the start time and the interval. *)
Theorem start_then_status (s s1 : jm_state) (st : job_status) (interval_seconds : Z)
    (now : string) :
  status s = Some (st, s1) -> running st = false ->
  script_exists s = true -> (0 < next_pid s)%Z ->
  exists st' s',
    start s interval_seconds now = Some (st', s') /\ status s' = Some (st', s') /\
    running st' = true /\ js_pid st' = Some (JInt (next_pid s)) /\
    js_interval_seconds st' = Some (JInt interval_seconds).
Proof.
  intros Hs Hr Hscr Hn.
  pose proof (status_result s s1 st Hs) as [Hp [[Hr' _]|[_ Hf]]];
    [congruence|].
  assert (Hscr1 : script_exists s1 = script_exists s /\ next_pid s1 = next_pid s).
  { revert Hs. unfold status.
    destruct (read_pidfile s); try discriminate.
    destruct (as_int (obj_get members "pid")) as [q|];
      [destruct (is_pid_alive s q)|]; intros H; injection H as _ <-; auto. }
  destruct Hscr1 as [Hscr1 Hn1].
  unfold start. rewrite Hs, Hr, Hscr1, Hscr. simpl.
  do 2 eexists. split; [reflexivity|].
  unfold status, read_pidfile. simpl.
  unfold is_pid_alive. simpl.
  rewrite Hn1. destruct (Z.leb_spec (next_pid s) 0); [lia|].
  rewrite Z.eqb_refl. simpl. auto.
Qed.

Lemma start_then_status_witness :
  exists st' s',
    start {| pid_file := None; procs := []; protected := [];
             script_exists := true; next_pid := 8 |} 600 "t" = Some (st', s') /\
    status s' = Some (st', s') /\
    running st' = true /\ js_pid st' = Some (JInt 8) /\
    js_interval_seconds st' = Some (JInt 600).
Proof.
  apply (start_then_status
           {| pid_file := None; procs := []; protected := [];
              script_exists := true; next_pid := 8 |}
           {| pid_file := None; procs := []; protected := [];
              script_exists := true; next_pid := 8 |}
           (not_running None) 600 "t");
    vm_compute; reflexivity.
Defined.

End JobManagerFacts.

(** ** The schedule endpoint (src/webui/main.py, schedule_post) *)

Module ScheduleFacts.
Import JobManager.
Local Open Scope Z_scope.

(** X14. The configuration file [/schedule] writes is read back by
    [load_config] as the requested number of minutes, raised to at least
    one, times 60. *)
Theorem schedule_post_saves_interval (int_of_str int_of_float : string -> option Z)
    (interval_minutes : Z) (s s' : jm_state) (now : string) (cf : json_file) :
  schedule_post interval_minutes s now = Some (cf, s') ->
  load_config int_of_str int_of_float cf = Z.max interval_minutes 1 * 60.
Proof.
  intros H.
  assert (cf = save_config (schedule_interval interval_minutes)) as ->.
  { revert H. unfold schedule_post.
    destruct (JobManager.status s) as [[st s1]|]; [|discriminate].
    destruct (JobManager.running st); [|intros H; injection H as <- _; reflexivity].
    destruct (JobManager.stop s1) as [[? s2]|]; [|discriminate].
    destruct (JobManager.start s2 _ now) as [[? s3]|]; [|discriminate].
    intros H; injection H as <- _; reflexivity. }
  unfold load_config, save_config, schedule_interval. simpl.
  destruct (Z.ltb_spec interval_minutes 1).
  - simpl. lia.
  - destruct (Z.leb_spec (interval_minutes * 60) 0); lia.
Qed.

Lemma schedule_post_saves_interval_witness :
  load_config (fun _ => None) (fun _ => None) (save_config 60) = Z.max 0 1 * 60.
Proof.
  apply (schedule_post_saves_interval (fun _ => None) (fun _ => None) 0
           {| pid_file := None; procs := []; protected := [];
              script_exists := true; next_pid := 8 |}
           (set_pid_file {| pid_file := None; procs := []; protected := [];
                            script_exists := true; next_pid := 8 |} None) "t").
  vm_compute. reflexivity.
Defined.

End ScheduleFacts.

(** ** The second driver (src/docmerger1.py) *)

Lemma insert_before_layout (x : elem) (ps : body) (s : string) (ts : body) :
  Forall (fun y => is_p y = true) ps ->
  insert_before_sectPr x (ps ++ SectPr s :: ts) = ps ++ x :: SectPr s :: ts.
Proof.
  induction ps as [|a ps IH]; intros H; [reflexivity|].
  inversion H as [|? ? Ha Hps]; subst. simpl.
  replace (is_sectPr a) with false by (destruct a; simpl in *; congruence).
  rewrite IH by exact Hps. reflexivity.
Qed.

Lemma layout_insert_p (x : elem) (b : body) :
  para_sect_tables b -> is_p x = true -> para_sect_tables (insert_before_sectPr x b).
Proof.
  intros (ps & s & ts & -> & Hp & Ht) Hx.
  exists (ps ++ [x]), s, ts. rewrite insert_before_layout by exact Hp.
  rewrite <- app_assoc. split; [reflexivity|].
  split; [apply Forall_app; auto|exact Ht].
Qed.

Lemma layout_append_table (t : elem) (b : body) :
  para_sect_tables b -> is_table t = true ->
  para_sect_tables (insert_before_sectPr (Para EmptyString) b ++ [t]).
Proof.
  intros (ps & s & ts & -> & Hp & Ht) Hx.
  exists (ps ++ [Para EmptyString]), s, (ts ++ [t]).
  rewrite insert_before_layout by exact Hp.
  split; [rewrite <- !app_assoc; reflexivity|].
  split; apply Forall_app; auto.
Qed.

Lemma layout_append_document (ct : elem -> string) (m sub : body) :
  para_sect_tables m -> para_sect_tables (append_document ct m sub).
Proof.
  intros Hm. unfold append_document.
  assert (Hm1 : para_sect_tables
                  (fold_left (fun m para => insert_before_sectPr (Para (ct para)) m)
                     (List.filter is_p sub) m)).
  { revert m Hm. induction (List.filter is_p sub) as [|x l IH]; intros m Hm;
      [exact Hm|].
    simpl. apply IH. apply layout_insert_p; [exact Hm|reflexivity]. }
  assert (Ht : Forall (fun x => is_table x = true) (List.filter is_table sub)).
  { apply List.Forall_forall. intros x Hx. apply filter_In in Hx. tauto. }
  revert Hm1 Ht.
  generalize (fold_left (fun m para => insert_before_sectPr (Para (ct para)) m)
                (List.filter is_p sub) m).
  induction (List.filter is_table sub) as [|x l IH]; intros m1 Hm1 Ht; [exact Hm1|].
  inversion Ht; subst. simpl. apply IH; [|assumption].
  apply layout_append_table; assumption.
Qed.

Lemma layout_page_break (m : body) :
  para_sect_tables m ->
  para_sect_tables (if has_paragraphs m then add_page_break m else m).
Proof.
  intros Hm. destruct (has_paragraphs m); [|exact Hm].
  apply layout_insert_p; [exact Hm|reflexivity].
Qed.

Lemma process_file1_layout (ct : elem -> string) (e : env) p mem f :
  para_sect_tables mem ->
  para_sect_tables (fst (process_file1 ct e p mem f)) /\
  forall g b, In (EPersist g b) (snd (process_file1 ct e p mem f)) -> para_sect_tables b.
Proof.
  intros Hm. unfold process_file1.
  destruct (endswith ".docx" f); simpl; [|split; [exact Hm|contradiction]].
  destruct (p !! f); simpl; [split; [exact Hm|contradiction]|].
  pose proof (layout_page_break mem Hm) as H1.
  destruct (read_doc e f) as [sub|]; simpl.
  - pose proof (layout_append_document ct _ sub H1) as H2. destruct (save_ok e f); simpl; (split; [exact H2|]);
      intros g b Hin; repeat destruct Hin as [Hin|Hin]; try discriminate;
      try contradiction.
    injection Hin as _ <-. exact H2.
  - split; [exact H1|]. intros g b Hin.
    repeat destruct Hin as [Hin|Hin]; try discriminate; contradiction.
Qed.

Lemma process_files1_layout (ct : elem -> string) (e : env) p names :
  forall mem, para_sect_tables mem ->
  para_sect_tables (fst (process_files1 ct e p mem names)) /\
  forall g b, In (EPersist g b) (snd (process_files1 ct e p mem names)) ->
  para_sect_tables b.
Proof.
  induction names as [|f rest IH]; intros mem Hm; [split; [exact Hm|contradiction]|].
  simpl. pose proof (process_file1_layout ct e p mem f Hm) as [H1 H2].
  destruct (process_file1 ct e p mem f) as [m1 t1]. simpl in H1, H2.
  pose proof (IH m1 H1) as [H3 H4].
  destruct (process_files1 ct e p m1 rest) as [m2 t2]. simpl in H3, H4 |- *.
  split; [exact H3|]. intros g b Hin. apply in_app_or in Hin as [Hin|Hin]; eauto.
Qed.

(** X16. Every document docmerger1.py saves, when the output file it
    starts from is new or already laid out so, has all its paragraphs
    first, then the section properties, then all tables: the tables of a
    merged file end up after the text of every file, later ones included. *)
Theorem docmerger1_tables_after_text (ct : elem -> string) (e : env) (d : disk)
    (f : string) (b : body) :
  (forall a, artifact d = Some a -> para_sect_tables a) ->
  In (EPersist f b) (merge_docx_files1 ct e d) ->
  para_sect_tables b.
Proof.
  intros Ha Hin. unfold merge_docx_files1 in Hin.
  assert (H0 : para_sect_tables (match artifact d with
                                 | Some b => b
                                 | None => clear_content new_document
                                 end)).
  { destruct (artifact d) as [a|]; [apply Ha; reflexivity|].
    exists [], "default", []. repeat split; constructor. }
  exact (proj2 (process_files1_layout ct e _ _ _ H0) f b Hin).
Qed.

Lemma docmerger1_tables_after_text_witness :
  para_sect_tables [Para "t"; Para EmptyString; SectPr "default"; Table "T1"].
Proof.
  apply (docmerger1_tables_after_text
           (fun x => match x with Para t => t | _ => EmptyString end)
           (env_of [("a.docx", [Para "t"; Table "T1"; SectPr "A"])] [] [])
           empty_disk "a.docx").
  - intros a H. discriminate.
  - vm_compute. right. left. reflexivity.
Defined.

Lemma count_breaks_append_document (ct : elem -> string) (m sub : body) :
  count_breaks (append_document ct m sub) = count_breaks m.
Proof.
  unfold append_document.
  assert (Ht : Forall (fun x => is_table x = true) (List.filter is_table sub)).
  { apply List.Forall_forall. intros x Hx. apply filter_In in Hx. tauto. }
  revert Ht.
  generalize (List.filter is_table sub) as tl.
  assert (H1 : forall m, count_breaks
             (fold_left (fun m para => insert_before_sectPr (Para (ct para)) m)
                (List.filter is_p sub) m) = count_breaks m).
  { induction (List.filter is_p sub) as [|x l IH]; intros m'; [reflexivity|].
    simpl. rewrite IH, count_breaks_insert. reflexivity. }
  intros tl Ht. rewrite <- (H1 m).
  generalize (fold_left (fun m para => insert_before_sectPr (Para (ct para)) m)
                (List.filter is_p sub) m).
  induction tl as [|x l IH]; intros m1; [reflexivity|].
  inversion Ht as [|? ? Hx Hl]; subst. simpl. rewrite (IH Hl).
  rewrite count_breaks_app, count_breaks_insert.
  destruct x; try discriminate. unfold count_breaks. simpl. lia.
Qed.

Lemma has_paragraphs_add_page_break (b : body) :
  has_paragraphs (add_page_break b) = true.
Proof.
  unfold has_paragraphs, add_page_break.
  induction b as [|a b IH]; [reflexivity|]. simpl.
  destruct (is_sectPr a); [reflexivity|]. simpl. rewrite IH. apply orb_true_r.
Qed.

(** X17. In docmerger1.py the page break for a file is added before the
    file is opened, when the in-memory document has paragraphs: when
    [.docx] files [fs] that cannot be opened come before a file [g] that
    merges and saves, every one of them leaves its page break in the
    in-memory document, so the document saved for [g] holds
    [length fs + 1] page breaks more than the document before them (one per
    failed file and one for [g]), and none more when the document had no
    paragraphs. *)
Theorem docmerger1_failed_open_keeps_break (ct : elem -> string) (e : env)
    (p : gmap string string) (fs : list string) (g : string) (sub : body) :
  (forall f, In f fs -> endswith ".docx" f = true /\ p !! f = None /\ read_doc e f = None) ->
  endswith ".docx" g = true -> p !! g = None -> read_doc e g = Some sub ->
  save_ok e g = true ->
  forall mem, exists b, In (EPersist g b) (snd (process_files1 ct e p mem (fs ++ [g]))) /\
    count_breaks b
    = (count_breaks mem + (if has_paragraphs mem then List.length fs + 1 else 0))%nat.
Proof.
  intros Hfs Hg1 Hg2 Hg3 Hg4.
  induction fs as [|f fs IH]; intros mem.
  - exists (append_document ct (if has_paragraphs mem then add_page_break mem else mem) sub).
    split.
    + simpl. unfold process_file1. rewrite Hg1, Hg2. simpl. rewrite Hg3, Hg4. simpl.
      right. left. reflexivity.
    + rewrite count_breaks_append_document.
      destruct (has_paragraphs mem); [rewrite count_breaks_add_page_break|]; simpl; lia.
  - destruct (Hfs f (or_introl eq_refl)) as (Hf1 & Hf2 & Hf3).
    destruct IH with (mem := if has_paragraphs mem then add_page_break mem else mem)
      as (b & Hin & Hc); [intros x Hx; apply Hfs; right; exact Hx|].
    exists b. split.
    + simpl. unfold process_file1 at 1. rewrite Hf1, Hf2. simpl. rewrite Hf3.
      destruct (process_files1 ct e p (if has_paragraphs mem then add_page_break mem else mem)
                  (fs ++ [g])) as [m2 t2].
      simpl in Hin |- *. do 3 right. exact Hin.
    + rewrite Hc. simpl.
      destruct (has_paragraphs mem) eqn:Hm.
      * rewrite has_paragraphs_add_page_break, count_breaks_add_page_break. lia.
      * rewrite Hm. lia.
Qed.

Lemma docmerger1_failed_open_keeps_break_witness :
  exists b, In (EPersist "c.docx" b)
    (snd (process_files1 (fun x => match x with Para t => t | _ => EmptyString end)
            (env_of [("a.docx", doc_of "A" ["a"]); ("b.docx", doc_of "B" ["b"]);
                     ("c.docx", doc_of "C" ["c"])]
               ["a.docx"; "b.docx"] [])
            ∅ [Para "x"; SectPr "default"] (["a.docx"; "b.docx"] ++ ["c.docx"]))) /\
    count_breaks b = (count_breaks [Para "x"; SectPr "default"] + 3)%nat.
Proof.
  apply (docmerger1_failed_open_keeps_break
           (fun x => match x with Para t => t | _ => EmptyString end)
           (env_of [("a.docx", doc_of "A" ["a"]); ("b.docx", doc_of "B" ["b"]);
                    ("c.docx", doc_of "C" ["c"])]
              ["a.docx"; "b.docx"] [])
           ∅ ["a.docx"; "b.docx"] "c.docx" (doc_of "C" ["c"]));
    try (vm_compute; reflexivity).
  intros f [<-|[<-|[]]]; vm_compute; auto.
Defined.
